(** * Verification of the validation and URL helpers of altogic-js

    The helpers under verification are [removeTrailingSlash], [normalizeUrl],
    [checkRequired], [arrayRequired], [integerRequired] and [objectRequired].
    They are embedded as executable Rocq functions over a small model of
    JavaScript run-time values; a thrown [ClientError] is an explicit abrupt
    completion.  [getParamValue] is embedded for the parameter names whose
    pattern is made of characters that stand for themselves. *)

From Stdlib Require Import ZArith NArith List String Ascii Bool Lia SpecFloat.
Import ListNotations.

Set Implicit Arguments.
Set Warnings "-register-all".

(** ** The fragment of JavaScript the helpers rely on *)

Module Js.

(** A JavaScript string is a sequence of UTF-16 code units. *)
Definition JsString := list N.

(** A string literal of the source (all literals of the helpers are ASCII). *)
Definition lit (s : string) : JsString :=
  map N_of_ascii (list_ascii_of_string s).

Fixpoint str_eqb (a b : JsString) : bool :=
  match a, b with
  | [], [] => true
  | x :: a', y :: b' => N.eqb x y && str_eqb a' b'
  | _, _ => false
  end.

(** JavaScript numbers are IEEE 754 binary64 values. *)
Definition JsNumber := spec_float.

(** The binary64 number nearest to [m * 2^e]. *)
Definition number (m e : Z) : JsNumber := binary_normalize 53 1024 m e false.

Definition NaN : JsNumber := S754_nan.

Inductive JsValue :=
| VUndefined
| VNull
| VBoolean (b : bool)
| VNumber (x : JsNumber)
| VBigInt (z : Z)
| VString (s : JsString)
| VSymbol (description : JsString)
| VFunction (name : JsString)
| VArray (elements : list JsValue)
| VObject (properties : list (JsString * JsValue)).

(** The [typeof] operator. *)
Definition typeof (v : JsValue) : JsString :=
  match v with
  | VUndefined => lit "undefined"
  | VNull => lit "object"
  | VBoolean _ => lit "boolean"
  | VNumber _ => lit "number"
  | VBigInt _ => lit "bigint"
  | VString _ => lit "string"
  | VSymbol _ => lit "symbol"
  | VFunction _ => lit "function"
  | VArray _ => lit "object"
  | VObject _ => lit "object"
  end.

(** [v === s] for a string [s]: strict equality never converts. *)
Definition strict_eq_string (v : JsValue) (s : JsString) : bool :=
  match v with
  | VString t => str_eqb t s
  | _ => false
  end.

(** [Array.isArray]. *)
Definition Array_isArray (v : JsValue) : bool :=
  match v with
  | VArray _ => true
  | _ => false
  end.

(** White space and line terminators, the code units [trim] strips. *)
Definition isWhiteSpace (c : N) : bool :=
  ((9 <=? c) && (c <=? 13) || (c =? 32) || (c =? 160) || (c =? 5760)
   || (8192 <=? c) && (c <=? 8202) || (c =? 8232) || (c =? 8233)
   || (c =? 8239) || (c =? 8287) || (c =? 12288) || (c =? 65279))%N.

Fixpoint trimStart (s : JsString) : JsString :=
  match s with
  | [] => []
  | c :: r => if isWhiteSpace c then trimStart r else s
  end.

Fixpoint trimEnd (s : JsString) : JsString :=
  match s with
  | [] => []
  | c :: r =>
      match trimEnd r with
      | [] => if isWhiteSpace c then [] else [c]
      | r' => c :: r'
      end
  end.

(** [String.prototype.trim]. *)
Definition trim (s : JsString) : JsString := trimEnd (trimStart s).

(** [Number.isInteger]: false for every value that is not a number, for NaN
    and the infinities; true for a finite number with no fractional part. *)
Definition Number_isInteger (v : JsValue) : bool :=
  match v with
  | VNumber (S754_zero _) => true
  | VNumber (S754_finite _ m e) =>
      (0 <=? e)%Z || (Z.pos m mod 2 ^ (- e) =? 0)%Z
  | _ => false
  end.

(** [v <= 0] for a number [v].  The helpers evaluate it only after
    [Number.isInteger v] held, so no conversion to a number is involved. *)
Definition le_zero (v : JsValue) : bool :=
  match v with
  | VNumber x => SFleb x (S754_zero false)
  | _ => false
  end.

(** The value of a parameter declared with a default: the default applies
    when the argument is omitted. *)
Definition param (default : bool) (arg : option bool) : bool :=
  match arg with
  | Some b => b
  | None => default
  end.

End Js.

Import Js.

(** ** Errors *)

(** Modelled from the spec: the class [ClientError] is imported from
    [./ClientError], which is not among the sources; it is the structured
    error value with a machine-readable [code] and a human-readable
    [message], constructed as [new ClientError(code, message)]. *)
Record ClientError := mkClientError {
  code : JsString;
  message : JsString
}.

(** The outcome of a call: normal return or a thrown [ClientError]. *)
Inductive Completion (A : Type) :=
| Return (a : A)
| Throw (e : ClientError).

Arguments Return {A} a.
Arguments Throw {A} e.

Definition bind {A B} (c : Completion A) (k : A -> Completion B) : Completion B :=
  match c with
  | Return a => k a
  | Throw e => Throw e
  end.

Notation "c ;; k" := (bind c (fun _ => k))
  (at level 61, right associativity).

(** [if (cond) throw new ClientError(code, message);] *)
Definition throw_if (cond : bool) (c m : JsString) : Completion unit :=
  if cond then Throw (mkClientError c m) else Return tt.

(** ** The helpers *)

Module Helpers.

(** The first position at which [/\/$/] matches is the last code unit, when
    it is a slash; [replace] removes that one match. *)
Definition matches_slash_at_end (s : JsString) : bool :=
  match s with
  | [c] => (c =? 47)%N
  | _ => false
  end.

Fixpoint removeTrailingSlash (url : JsString) : JsString :=
  if matches_slash_at_end url then []
  else match url with
       | [] => []
       | c :: rest => c :: removeTrailingSlash rest
       end.

Definition normalizeUrl (url : JsString) : JsString :=
  removeTrailingSlash (trim url).

Definition checkRequired (fieldName : JsString) (fieldValue : JsValue)
    (checkEmptyString : option bool) : Completion unit :=
  let checkEmptyString := param true checkEmptyString in
  throw_if
    match fieldValue with VNull | VUndefined => true | _ => false end
    (lit "missing_required_value")
    (fieldName ++ lit " is a required parameter, cannot be left empty") ;;
  throw_if
    (checkEmptyString &&
     (strict_eq_string fieldValue (lit "") ||
      (str_eqb (typeof fieldValue) (lit "string") &&
       match fieldValue with
       | VString s => str_eqb (trim s) (lit "")
       | _ => false
       end)))
    (lit "missing_required_value")
    (fieldName ++ lit " is a required parameter, cannot be left empty").

Definition arrayRequired (fieldName : JsString) (fieldValue : JsValue)
    (checkEmptyArray : option bool) : Completion unit :=
  let checkEmptyArray := param false checkEmptyArray in
  checkRequired fieldName fieldValue (Some false) ;;
  throw_if (negb (Array_isArray fieldValue))
    (lit "invalid_value")
    (fieldName ++ lit " needs to be an array") ;;
  throw_if
    (checkEmptyArray &&
     match fieldValue with
     | VArray elements => (List.length elements =? 0)%nat
     | _ => false
     end)
    (lit "emtpy_array")
    (fieldName ++ lit " needs to be an array with at least one entry").

Definition integerRequired (fieldName : JsString) (fieldValue : JsValue)
    (checkPositive : option bool) : Completion unit :=
  let checkPositive := param true checkPositive in
  checkRequired fieldName fieldValue (Some false) ;;
  throw_if (negb (Number_isInteger fieldValue))
    (lit "invalid_value")
    (fieldName ++ lit " needs to be an integer") ;;
  throw_if (checkPositive && le_zero fieldValue)
    (lit "invalid_value")
    (fieldName ++ lit " needs to be a positive integer").

Definition objectRequired (fieldName : JsString) (fieldValue : JsValue)
    (checkArray : option bool) : Completion unit :=
  let checkArray := param false checkArray in
  checkRequired fieldName fieldValue (Some false) ;;
  throw_if (negb (str_eqb (typeof fieldValue) (lit "object")))
    (lit "invalid_value")
    (fieldName ++ lit " needs to be an object") ;;
  throw_if (negb (Array_isArray fieldValue) && checkArray)
    (lit "invalid_value")
    (fieldName ++ lit " needs to be an array").

End Helpers.

Import Helpers.

(** ** Reading a parameter of the location *)

(** The part of [RegExp] that [getParamValue] relies on. *)
Module RegExp.

(** The patterns [getParamValue] can build: pattern characters and identity
    escapes, character classes, a greedy star on a class, the end
    assertion, sequences, alternatives and numbered capture groups. *)
Inductive Regex :=
| Empty
| Char (c : N)
| Class (negated : bool) (members : list N)
| StarClass (negated : bool) (members : list N)
| EndOfInput
| Seq (a b : Regex)
| Alt (a b : Regex)
| Group (n : nat) (a : Regex).

(** The captures of a match, the latest first. *)
Definition Captures := list (nat * JsString).

Fixpoint capture (n : nat) (caps : Captures) : option JsString :=
  match caps with
  | [] => None
  | (m, s) :: rest => if (n =? m)%nat then Some s else capture n rest
  end.

Definition in_class (negated : bool) (members : list N) (c : N) : bool :=
  xorb negated (existsb (N.eqb c) members).

(** The part of [s] consumed when [s'] is what remains of it. *)
Definition consumed (s s' : JsString) : JsString :=
  firstn (List.length s - List.length s') s.

(** The backtracking matcher: [matcher r s caps k] matches [r] at the head
    of [s] and hands what remains to the continuation [k]; a failure of
    [k] makes the matcher try its next choice. *)
Fixpoint matcher (r : Regex) (s : JsString) (caps : Captures)
    (k : JsString -> Captures -> option Captures) : option Captures :=
  match r with
  | Empty => k s caps
  | Char c =>
      match s with
      | x :: s' => if (x =? c)%N then k s' caps else None
      | [] => None
      end
  | Class negated members =>
      match s with
      | x :: s' => if in_class negated members x then k s' caps else None
      | [] => None
      end
  | StarClass negated members =>
      (fix star (s : JsString) : option Captures :=
         match s with
         | x :: s' =>
             if in_class negated members x
             then match star s' with
                  | Some result => Some result
                  | None => k s caps
                  end
             else k s caps
         | [] => k s caps
         end) s
  | EndOfInput =>
      match s with
      | [] => k s caps
      | _ :: _ => None
      end
  | Seq a b => matcher a s caps (fun s' caps' => matcher b s' caps' k)
  | Alt a b =>
      match matcher a s caps k with
      | Some result => Some result
      | None => matcher b s caps k
      end
  | Group n a =>
      matcher a s caps (fun s' caps' => k s' ((n, consumed s s') :: caps'))
  end.

(** [regex.exec(s)] for a pattern without flags: the match at the first
    position where there is one, with its captures (number 0 is the whole
    match), or nothing. *)
Fixpoint exec (r : Regex) (s : JsString) : option Captures :=
  match matcher r s [] (fun s' caps => Some ((0%nat, consumed s s') :: caps)) with
  | Some caps => Some caps
  | None =>
      match s with
      | [] => None
      | _ :: s' => exec r s'
      end
  end.

(** The characters with a meaning of their own in a pattern. *)
Definition isSyntaxCharacter (c : N) : bool :=
  existsb (N.eqb c) (lit "^$\.*+?()[]{}|").

Definition backslash : N := 92.

(** A pattern text made of pattern characters and of escaped syntax
    characters, each standing for itself; nothing for any other text. *)
Fixpoint parse_characters (p : JsString) : option Regex :=
  match p with
  | [] => Some Empty
  | c :: r =>
      if (c =? backslash)%N then
        match r with
        | d :: r' =>
            if isSyntaxCharacter d
            then option_map (Seq (Char d)) (parse_characters r')
            else None
        | [] => None
        end
      else if isSyntaxCharacter c then None
      else option_map (Seq (Char c)) (parse_characters r)
  end.

End RegExp.

(** [decodeURIComponent], after the Decode operation of ECMAScript. *)
Module URI.

Definition percent : N := 37.

Definition hex_value (c : N) : option N :=
  if ((48 <=? c) && (c <=? 57))%N then Some (c - 48)%N
  else if ((65 <=? c) && (c <=? 70))%N then Some (c - 55)%N
  else if ((97 <=? c) && (c <=? 102))%N then Some (c - 87)%N
  else None.

(** The octet written by the two hexadecimal digits at the head of [s]. *)
Definition parse_hex_octet (s : JsString) : option N :=
  match s with
  | h :: l :: _ =>
      match hex_value h, hex_value l with
      | Some a, Some b => Some (16 * a + b)%N
      | _, _ => None
      end
  | _ => None
  end.

(** The number of leading 1 bits of an octet. *)
Definition leading_ones (b : N) : nat :=
  if (b <? 128)%N then 0
  else if (b <? 192)%N then 1
  else if (b <? 224)%N then 2
  else if (b <? 240)%N then 3
  else if (b <? 248)%N then 4
  else 5.

(** The [j] continuation octets [%XX] at the head of [s]. *)
Fixpoint continuation_octets (j : nat) (s : JsString) : option (list N) :=
  match j with
  | O => Some []
  | S j' =>
      match s with
      | c :: r =>
          if (c =? percent)%N then
            match parse_hex_octet r, continuation_octets j' (skipn 2 r) with
            | Some b, Some bs => Some (b :: bs)
            | _, _ => None
            end
          else None
      | [] => None
      end
  end.

(** The code point that the octet [b] with [n] leading ones and the
    octets [rest] encode in UTF-8, if they are a valid encoding. *)
Definition utf8_code_point (b : N) (n : nat) (rest : list N) : option N :=
  if forallb (fun o => (128 <=? o) && (o <=? 191))%N rest then
    let v := fold_left (fun acc o => acc * 64 + (o - 128))%N rest
               (b mod 2 ^ N.of_nat (7 - n))%N in
    let least :=
      match n with 2%nat => 128%N | 3%nat => 2048%N | _ => 65536%N end in
    if ((least <=? v) && (v <=? 1114111)
        && negb ((55296 <=? v) && (v <=? 57343)))%N
    then Some v else None
  else None.

Definition utf16_encode (v : N) : JsString :=
  if (v <=? 65535)%N then [v]
  else [((v - 65536) / 1024 + 55296)%N; ((v - 65536) mod 1024 + 56320)%N].

(** [decode s skip]: the decoding of [s] after its first [skip] code
    units, which belong to an escape already decoded.  Nothing stands for
    a thrown [URIError]. *)
Fixpoint decode (s : JsString) (skip : nat) : option JsString :=
  match s with
  | [] => Some []
  | c :: r =>
      match skip with
      | S skip' => decode r skip'
      | O =>
          if (c =? percent)%N then
            match parse_hex_octet r with
            | None => None
            | Some b =>
                let n := leading_ones b in
                if (n =? 0)%nat then option_map (cons b) (decode r 2)
                else if ((n =? 1) || (4 <? n))%nat then None
                else
                  match continuation_octets (n - 1) (skipn 2 r) with
                  | None => None
                  | Some octets =>
                      match utf8_code_point b n octets with
                      | None => None
                      | Some v =>
                          option_map (app (utf16_encode v))
                            (decode r (2 + 3 * (n - 1)))
                      end
                  end
            end
          else option_map (cons c) (decode r 0)
      end
  end.

Definition decodeURIComponent (s : JsString) : option JsString := decode s 0.

End URI.

Module Params.

Import RegExp URI.

(** What a call of [getParamValue] does.  [OutsideFragment] is no
    behaviour of the code: it marks the parameter names for which the
    pattern built is outside the patterns of [Regex]. *)
Inductive ParamResult :=
| ReturnsNull
| ReturnsString (s : JsString)
| ThrowsURIError
| OutsideFragment.

(** The global [replace] of [paramName]: each opening or closing square
    bracket is replaced by a backslash followed by that bracket. *)
Definition escape_brackets (s : JsString) : JsString :=
  flat_map (fun c => if ((c =? 91) || (c =? 93))%N then [backslash; c] else [c]) s.

(** The global [replace] of the value: each plus sign becomes a space. *)
Definition plus_to_space (s : JsString) : JsString :=
  map (fun c => if (c =? 43)%N then 32%N else c) s.

(** The pattern built around the name, the two literal parts as they
    parse: one of [?], [&] and [#]; the name; then group 1, which is
    either [=] followed by group 2, the longest run of code units other
    than [&] and [#], or [&], or [#], or the end of the input. *)
Definition param_pattern (name : Regex) : Regex :=
  Seq (Class false (lit "?&#"))
    (Seq name
       (Group 1
          (Alt (Seq (Char 61) (Group 2 (StarClass true (lit "&#"))))
             (Alt (Char 38) (Alt (Char 35) EndOfInput))))).

Definition RegExp_for (paramName : JsString) : option Regex :=
  option_map param_pattern (parse_characters paramName).

(** [window] is the [href] of [globalThis.window.location] when there is a
    [globalThis.window]. *)
Definition getParamValue (window : option JsString) (paramName : JsString)
    : ParamResult :=
  match window, paramName with
  | Some href, _ :: _ =>
      let url := href in
      let paramName := escape_brackets paramName in
      match RegExp_for paramName with
      | None => OutsideFragment
      | Some regex =>
          match exec regex url with
          | None => ReturnsNull
          | Some results =>
              match capture 2 results with
              | None | Some [] => ReturnsNull
              | Some value =>
                  match decodeURIComponent (plus_to_space value) with
                  | Some decoded => ReturnsString decoded
                  | None => ThrowsURIError
                  end
              end
          end
      end
  | _, _ => ReturnsNull
  end.

End Params.

Import RegExp URI Params.

(** ** Vocabulary of the statements *)

(** The code of the error a call raised, if it raised one. *)
Definition raised_code {A} (c : Completion A) : option JsString :=
  match c with
  | Return _ => None
  | Throw e => Some (code e)
  end.

(** [null] and [undefined]. *)
Definition absent (v : JsValue) : Prop := v = VNull \/ v = VUndefined.

Definition is_string (v : JsValue) : Prop := exists s, v = VString s.

Definition is_array (v : JsValue) : Prop := exists elements, v = VArray elements.

(** A string made of white space only (the empty string included). *)
Definition blank (s : JsString) : bool := forallb isWhiteSpace s.

(** [x] is the finite number whose value [(-1)^s * m * 2^e] is the
    mathematical integer [z]. *)
Definition denotes (x : JsNumber) (z : Z) : Prop :=
  match x with
  | S754_zero _ => z = 0%Z
  | S754_finite s m e =>
      (0 <= e /\ z = cond_Zopp s (Z.pos m) * 2 ^ e)%Z \/
      (e < 0 /\ z * 2 ^ (- e) = cond_Zopp s (Z.pos m))%Z
  | _ => False
  end.

Definition whole_number (v : JsValue) : Prop :=
  exists x z, v = VNumber x /\ denotes x z.

(** The error every validator raises for a missing value. *)
Definition missing_error (fieldName : JsString) : ClientError :=
  mkClientError (lit "missing_required_value")
    (fieldName ++ lit " is a required parameter, cannot be left empty").

(** A string that starts with white space: [trim] never returns one. *)
Definition starts_blank (s : JsString) : bool :=
  match s with
  | [] => false
  | c :: _ => isWhiteSpace c
  end.

Definition slash : N := 47.

(** The last code unit of a string; [0] (neither a slash nor white space)
    stands for "none" on the empty string. *)
Definition last_unit (s : JsString) : N := last s 0%N.

(** The closed set of codes of the specification. *)
Definition taxonomy : list JsString :=
  [lit "missing_required_value"; lit "invalid_value"; lit "empty_array"].

(** The codes the validators raise, as the source spells them. *)
Definition raised_codes : list JsString :=
  [lit "missing_required_value"; lit "invalid_value"; lit "emtpy_array"].

(** The message starts with the field name the caller supplied. *)
Definition locatable (fieldName : JsString) (e : ClientError) : Prop :=
  exists rest, message e = fieldName ++ rest.

Definition well_formed_errors (fieldName : JsString) (c : Completion unit) : Prop :=
  forall e, c = Throw e -> In (code e) raised_codes /\ locatable fieldName e.

(** *** Vocabulary for [getParamValue] *)

Definition question_mark : N := 63.
Definition ampersand : N := 38.
Definition hash_sign : N := 35.
Definition equals_sign : N := 61.
Definition plus_sign : N := 43.

(** One of [?], [&] and [#], which may precede a parameter. *)
Definition separator (c : N) : bool := in_class false (lit "?&#") c.

Definition no_separator (s : JsString) : bool :=
  forallb (fun c => negb (separator c)) s.

(** The text of a key: no separator and no [=]. *)
Definition key_text (s : JsString) : bool :=
  forallb (fun c => negb (separator c) && negb (c =? equals_sign)%N) s.

(** A name in which only the square brackets are syntax characters of
    patterns. *)
Definition plain_name (s : JsString) : bool :=
  forallb (fun c => negb (isSyntaxCharacter c) || (c =? 91)%N || (c =? 93)%N) s.

Definition no_percent (s : JsString) : bool :=
  forallb (fun c => negb (c =? percent)%N) s.

(** The pattern that matches the text [name] and nothing else. *)
Fixpoint literal (name : JsString) : Regex :=
  match name with
  | [] => Empty
  | c :: rest => Seq (Char c) (literal rest)
  end.

(** What remains of [s] after its prefix [p], if [p] is a prefix of it. *)
Fixpoint strip_prefix (p s : JsString) : option JsString :=
  match p with
  | [] => Some s
  | c :: p' =>
      match s with
      | x :: s' => if (x =? c)%N then strip_prefix p' s' else None
      | [] => None
      end
  end.

Fixpoint take_while (p : N -> bool) (s : JsString) : JsString :=
  match s with
  | [] => []
  | c :: r => if p c then c :: take_while p r else []
  end.

Fixpoint drop_while (p : N -> bool) (s : JsString) : JsString :=
  match s with
  | [] => []
  | c :: r => if p c then drop_while p r else s
  end.

(** What the text after a name gives as group 2, if the pattern matches
    there: a value after [=], no value before [&], [#] and the end. *)
Definition value_after (after : JsString) : option (option JsString) :=
  match after with
  | [] => Some None
  | c :: v =>
      if (c =? equals_sign)%N
      then Some (Some (take_while (in_class true (lit "&#")) v))
      else if ((c =? ampersand) || (c =? hash_sign))%N then Some None
      else None
  end.

(** Group 2 of the match of the pattern for [name] at the head of [s]. *)
Definition match_at (name s : JsString) : option (option JsString) :=
  match s with
  | c :: rest =>
      if separator c then
        match strip_prefix name rest with
        | Some after => value_after after
        | None => None
        end
      else None
  | [] => None
  end.

(** Group 2 of the first match of the pattern for [name] in [s]. *)
Fixpoint find_param (name s : JsString) : option (option JsString) :=
  match match_at name s with
  | Some found => Some found
  | None =>
      match s with
      | [] => None
      | _ :: s' => find_param name s'
      end
  end.

(** What can follow a key: nothing, [=] or [&]. *)
Definition after_key (t : JsString) : Prop :=
  t = [] \/ exists c t', t = c :: t' /\ (c = equals_sign \/ c = ampersand).

(** What [getParamValue] returns for a value found. *)
Definition decoded (value : JsString) : ParamResult :=
  match decodeURIComponent (plus_to_space value) with
  | Some d => ReturnsString d
  | None => ThrowsURIError
  end.

(** A query string: parameters with or without a value, joined by [&]. *)
Definition Item := (JsString * option JsString)%type.

Definition render_item (i : Item) : JsString :=
  fst i ++ match snd i with
           | Some v => equals_sign :: v
           | None => []
           end.

Fixpoint render_query (q : list Item) : JsString :=
  match q with
  | [] => []
  | i :: q' =>
      render_item i ++ match q' with
                       | [] => []
                       | _ :: _ => ampersand :: render_query q'
                       end
  end.

Definition well_formed_item (i : Item) : bool :=
  key_text (fst i) &&
  match snd i with
  | Some v => no_separator v
  | None => true
  end.

(** The value of the first parameter called [name], if there is such a
    parameter. *)
Definition first_value (name : JsString) (q : list Item)
    : option (option JsString) :=
  option_map snd (find (fun i => str_eqb (fst i) name) q).

(** ** Strings *)

Lemma str_eqb_eq (a b : JsString) : str_eqb a b = true <-> a = b.
Proof.
  revert b; induction a as [|x a IH]; intros [|y b]; simpl;
    try (split; [discriminate | discriminate]); try tauto.
  rewrite andb_true_iff, N.eqb_eq, IH.
  split; [intros [-> ->]; reflexivity | intros H; inversion H; auto].
Qed.

Lemma str_eqb_nil (a : JsString) : str_eqb a [] = match a with [] => true | _ => false end.
Proof. destruct a; reflexivity. Qed.

Lemma trimEnd_nil_blank (s : JsString) : trimEnd s = [] <-> blank s = true.
Proof.
  induction s as [|c r IH]; simpl; [tauto|].
  rewrite andb_true_iff, <- IH.
  destruct (trimEnd r) as [|d r'], (isWhiteSpace c); split;
    try discriminate; try tauto; intros [? ?]; discriminate.
Qed.

Lemma blank_trimStart (s : JsString) : blank (trimStart s) = blank s.
Proof.
  induction s as [|c r IH]; simpl; [reflexivity|].
  destruct (isWhiteSpace c) eqn:E; simpl; [assumption | now rewrite E].
Qed.

(** [trim] leaves nothing exactly of the blank strings. *)
Lemma trim_nil_blank (s : JsString) : trim s = [] <-> blank s = true.
Proof. unfold trim. now rewrite trimEnd_nil_blank, blank_trimStart. Qed.

Lemma trimEnd_snoc (p : JsString) (c : N) :
  trimEnd (p ++ [c]) = if isWhiteSpace c then trimEnd p else p ++ [c].
Proof.
  induction p as [|d p IH]; simpl.
  - destruct (isWhiteSpace c); reflexivity.
  - rewrite IH. destruct (isWhiteSpace c); [reflexivity|].
    destruct (p ++ [c]) eqn:E; [now destruct p | reflexivity].
Qed.

Lemma trimEnd_length (s : JsString) : (List.length (trimEnd s) <= List.length s)%nat.
Proof.
  induction s as [|c r IH]; simpl; [lia|].
  destruct (trimEnd r); [destruct (isWhiteSpace c)|]; simpl in *; lia.
Qed.

Lemma trimStart_starts (s : JsString) : starts_blank (trimStart s) = false.
Proof.
  induction s as [|c r IH]; simpl; [reflexivity|].
  destruct (isWhiteSpace c) eqn:E; simpl; [assumption | exact E].
Qed.

Lemma trimStart_id (s : JsString) : starts_blank s = false -> trimStart s = s.
Proof. destruct s as [|c r]; simpl; [reflexivity | now intros ->]. Qed.

Lemma trimEnd_starts (s : JsString) :
  starts_blank s = false -> starts_blank (trimEnd s) = false.
Proof.
  destruct s as [|c r]; simpl; [reflexivity|]. intros E.
  destruct (trimEnd r); [rewrite E|]; simpl; auto.
Qed.

Lemma trim_starts (s : JsString) : starts_blank (trim s) = false.
Proof. apply trimEnd_starts, trimStart_starts. Qed.

(** ** URL helpers *)

Lemma last_unit_snoc (p : JsString) (c : N) : last_unit (p ++ [c]) = c.
Proof. apply last_last. Qed.

Lemma snoc_cases (s : JsString) : s = [] \/ exists p c, s = p ++ [c].
Proof.
  destruct s as [|a r]; [now left | right].
  destruct (@exists_last _ (a :: r)) as (p & c & E); [discriminate|].
  now exists p, c.
Qed.

Lemma removeTrailingSlash_snoc (p : JsString) (c : N) :
  removeTrailingSlash (p ++ [c]) = if (c =? slash)%N then p else p ++ [c].
Proof.
  induction p as [|d p IH].
  - simpl. unfold slash. destruct (c =? 47)%N; reflexivity.
  - change ((d :: p) ++ [c]) with (d :: (p ++ [c])).
    assert (M : matches_slash_at_end (d :: p ++ [c]) = false)
      by (simpl; now destruct p).
    simpl removeTrailingSlash. simpl in M. rewrite M, IH.
    destruct (c =? slash)%N; reflexivity.
Qed.

Lemma removeTrailingSlash_length (s : JsString) :
  (List.length (removeTrailingSlash s) <= List.length s)%nat.
Proof.
  destruct (snoc_cases s) as [-> | (p & c & ->)]; [simpl; lia|].
  rewrite removeTrailingSlash_snoc.
  destruct (c =? slash)%N; rewrite ?length_app; simpl; lia.
Qed.

Lemma removeTrailingSlash_fixed (s : JsString) :
  removeTrailingSlash s = s <-> last_unit s <> slash.
Proof.
  destruct (snoc_cases s) as [-> | (p & c & ->)].
  - simpl. unfold last_unit, slash. simpl. split; [discriminate | reflexivity].
  - rewrite removeTrailingSlash_snoc, last_unit_snoc.
    destruct (N.eqb_spec c slash) as [E | E].
    + split; [|tauto]. intros H. apply (f_equal (@List.length N)) in H.
      rewrite length_app in H. simpl in H. lia.
    + tauto.
Qed.

Lemma removeTrailingSlash_starts (s : JsString) :
  starts_blank s = false -> starts_blank (removeTrailingSlash s) = false.
Proof.
  destruct s as [|c r]; [reflexivity|].
  simpl. intros E. destruct r; [destruct (c =? 47)%N|]; simpl; auto.
Qed.

Lemma trimEnd_fixed (s : JsString) :
  trimEnd s = s <-> isWhiteSpace (last_unit s) = false.
Proof.
  destruct (snoc_cases s) as [-> | (p & c & ->)].
  - simpl. split; reflexivity.
  - rewrite trimEnd_snoc, last_unit_snoc.
    destruct (isWhiteSpace c); split; try reflexivity; try discriminate.
    intros H. apply (f_equal (@List.length N)) in H.
    pose proof (trimEnd_length p). rewrite length_app in H. simpl in H. lia.
Qed.

Lemma trimStart_split (s : JsString) :
  exists a, s = a ++ trimStart s /\ blank a = true.
Proof.
  induction s as [|c r (a & E & B)]; [now exists []|]. simpl.
  destruct (isWhiteSpace c) eqn:W.
  - exists (c :: a). simpl. now rewrite W, B, <- E.
  - now exists [].
Qed.

Lemma trimEnd_split (s : JsString) :
  exists b, s = trimEnd s ++ b /\ blank b = true.
Proof.
  induction s as [|c r (b & E & B)]; [now exists []|]. simpl.
  destruct (trimEnd r) as [|d r'] eqn:T.
  - simpl in E. subst r. destruct (isWhiteSpace c) eqn:W.
    + exists (c :: b). simpl. now rewrite W, B.
    + now exists b.
  - exists b. now rewrite E at 1.
Qed.

Lemma trimEnd_trimEnd (s : JsString) : trimEnd (trimEnd s) = trimEnd s.
Proof.
  induction s as [|c r IH]; [reflexivity|]. simpl.
  destruct (trimEnd r) as [|d r'] eqn:T.
  - destruct (isWhiteSpace c) eqn:W; simpl; [reflexivity | now rewrite W].
  - change (trimEnd (c :: d :: r')) with
      (match trimEnd (d :: r') with
       | [] => if isWhiteSpace c then [] else [c]
       | x :: y => c :: x :: y
       end).
    now rewrite IH.
Qed.

(** [trim] removes the white space around a string: what it returns is the
    string without a blank prefix and a blank suffix, and neither starts
    nor ends with white space. *)
Lemma trim_surrounding (s : JsString) :
  (exists a b, s = a ++ trim s ++ b /\ blank a = true /\ blank b = true) /\
  starts_blank (trim s) = false /\
  isWhiteSpace (last_unit (trim s)) = false.
Proof.
  split; [|split].
  - destruct (trimStart_split s) as (a & Ea & Ba).
    destruct (trimEnd_split (trimStart s)) as (b & Eb & Bb).
    exists a, b. unfold trim. now rewrite <- Eb, <- Ea.
  - apply trim_starts.
  - apply trimEnd_fixed. apply trimEnd_trimEnd.
Qed.

Lemma normalizeUrl_starts (x : JsString) : starts_blank (normalizeUrl x) = false.
Proof. apply removeTrailingSlash_starts, trim_starts. Qed.

(** On a string without leading white space, [normalizeUrl] changes nothing
    exactly when the string ends neither with a slash nor with white space. *)
Lemma normalizeUrl_fixed (y : JsString) :
  starts_blank y = false ->
  normalizeUrl y = y <->
  last_unit y <> slash /\ isWhiteSpace (last_unit y) = false.
Proof.
  intros Hy. unfold normalizeUrl, trim. rewrite (trimStart_id _ Hy).
  destruct (isWhiteSpace (last_unit y)) eqn:W.
  - split; [|intros [_ ?]; discriminate]. intros H. exfalso.
    destruct (snoc_cases y) as [-> | (p & c & ->)]; [discriminate W|].
    rewrite last_unit_snoc in W. rewrite trimEnd_snoc, W in H.
    apply (f_equal (@List.length N)) in H.
    pose proof (removeTrailingSlash_length (trimEnd p)).
    pose proof (trimEnd_length p). rewrite length_app in H. simpl in H. lia.
  - apply trimEnd_fixed in W. rewrite W, removeTrailingSlash_fixed. tauto.
Qed.

(** C4, as the code has it.  [removeTrailingSlash] strips exactly one
    trailing slash if there is one and [normalizeUrl] is [trim] followed by
    [removeTrailingSlash]; applying [removeTrailingSlash] twice gives the
    same as applying it once exactly when the string does not end with two
    slashes, and applying [normalizeUrl] twice gives the same as applying it
    once exactly when its result ends neither with a slash nor with a white
    space character. *)
Theorem url_helpers_idempotence_condition :
  (forall s, removeTrailingSlash (s ++ [slash]) = s) /\
  (forall x, last_unit x <> slash -> removeTrailingSlash x = x) /\
  (forall x, normalizeUrl x = removeTrailingSlash (trim x)) /\
  (forall x, removeTrailingSlash (removeTrailingSlash x) = removeTrailingSlash x
             <-> ~ exists s, x = s ++ [slash; slash]) /\
  (forall x, normalizeUrl (normalizeUrl x) = normalizeUrl x
             <-> last_unit (normalizeUrl x) <> slash /\
                 isWhiteSpace (last_unit (normalizeUrl x)) = false).
Proof.
  split; [|split; [|split; [|split]]].
  - intros s. now rewrite removeTrailingSlash_snoc.
  - intros x. apply removeTrailingSlash_fixed.
  - reflexivity.
  - intros x. rewrite removeTrailingSlash_fixed.
    destruct (snoc_cases x) as [-> | (p & c & ->)].
    + split; [intros _ (s & E); now destruct s | discriminate].
    + rewrite removeTrailingSlash_snoc.
      destruct (N.eqb_spec c slash) as [-> | E].
      * split.
        -- intros H (s & E). change [slash; slash] with ([slash] ++ [slash]) in E.
           rewrite app_assoc in E. apply app_inj_tail in E as [-> _].
           now rewrite last_unit_snoc in H.
        -- intros H L. apply H.
           destruct (snoc_cases p) as [-> | (q & d & ->)]; [discriminate L|].
           rewrite last_unit_snoc in L. subst d. exists q.
           now rewrite <- app_assoc.
      * rewrite last_unit_snoc. split; [|tauto].
        intros _ (s & H). change [slash; slash] with ([slash] ++ [slash]) in H.
        rewrite app_assoc in H. apply app_inj_tail in H as [_ ->]. tauto.
  - intros x. apply normalizeUrl_fixed, normalizeUrl_starts.
Qed.

Lemma url_helpers_idempotence_witness :
  last_unit (lit "a/b") <> slash /\
  removeTrailingSlash (lit "a/b") = lit "a/b" /\
  removeTrailingSlash (removeTrailingSlash (lit "a/"))
    = removeTrailingSlash (lit "a/").
Proof.
  destruct url_helpers_idempotence_condition as (_ & P & _ & Q & _).
  assert (L : last_unit (lit "a/b") <> slash) by (vm_compute; discriminate).
  split; [exact L | split; [exact (P _ L)|]].
  apply Q. intros (s & E). apply (f_equal (@rev N)) in E.
  rewrite rev_app_distr in E. vm_compute in E. discriminate E.
Defined.

(** Idempotence fails: of two trailing slashes the first call
    strips one and the second call the other; and [normalizeUrl] leaves the
    white space before a stripped slash to be trimmed by a second call. *)
Lemma url_helpers_not_idempotent :
  removeTrailingSlash (removeTrailingSlash (lit "a//"))
    <> removeTrailingSlash (lit "a//") /\
  normalizeUrl (normalizeUrl (lit "a /")) <> normalizeUrl (lit "a /").
Proof. split; vm_compute; discriminate. Qed.

(** The examples of the specification. *)
Example normalizeUrl_example :
  normalizeUrl (lit "  https://x.com/  ") = lit "https://x.com" /\
  removeTrailingSlash (lit "a/b/") = lit "a/b" /\
  removeTrailingSlash (lit "a/b") = lit "a/b".
Proof. repeat split. Qed.

(** ** Numbers *)

Lemma cond_Zopp_mul (s : bool) (a b : Z) :
  (cond_Zopp s (a * b) = cond_Zopp s a * b)%Z.
Proof. destruct s; simpl; lia. Qed.

(** [Number.isInteger] holds exactly of the numbers whose value is a
    mathematical integer. *)
Lemma Number_isInteger_whole (v : JsValue) :
  Number_isInteger v = true <-> whole_number v.
Proof.
  unfold whole_number. split.
  - destruct v as [| | |x| | | | | |]; try discriminate.
    destruct x as [s| | |s m e]; try discriminate; simpl; intros H.
    + exists (S754_zero s), 0%Z. now split.
    + apply orb_true_iff in H.
      destruct (Z.leb_spec 0 e) as [P | P].
      * exists (S754_finite s m e), (cond_Zopp s (Z.pos m) * 2 ^ e)%Z.
        split; [reflexivity | left; split; [assumption | reflexivity]].
      * destruct H as [H | H]; [discriminate|]. apply Z.eqb_eq in H.
        exists (S754_finite s m e), (cond_Zopp s (Z.pos m / 2 ^ (- e)))%Z.
        split; [reflexivity | right; split; [assumption|]].
        rewrite <- cond_Zopp_mul. f_equal.
        assert (K : (0 < 2 ^ (- e))%Z) by (apply Z.pow_pos_nonneg; lia).
        pose proof (Z.div_mod (Z.pos m) (2 ^ (- e)) ltac:(lia)). lia.
  - intros (x & z & -> & D).
    destruct x as [s| | |s m e]; simpl in *; try contradiction; [reflexivity|].
    apply orb_true_iff. destruct D as [[P _] | [P D]].
    + left. now apply Z.leb_le.
    + right. apply Z.eqb_eq.
      destruct s; simpl in D.
      * replace (Z.pos m) with ((- z) * 2 ^ (- e))%Z by lia. apply Z.mod_mul.
        apply Z.pow_nonzero; lia.
      * rewrite <- D. apply Z.mod_mul. apply Z.pow_nonzero; lia.
Qed.

(** On a number whose value is the integer [z], the comparison [v <= 0] of
    the source is the comparison [z <= 0]. *)
Lemma le_zero_whole (x : JsNumber) (z : Z) :
  denotes x z -> le_zero (VNumber x) = true <-> (z <= 0)%Z.
Proof.
  destruct x as [s| | |s m e]; simpl; try contradiction.
  - intros ->. unfold SFleb. simpl. split; [lia | reflexivity].
  - intros D. unfold SFleb. simpl.
    assert (K : forall k, (0 <= k -> 0 < 2 ^ k)%Z)
      by (intros; apply Z.pow_pos_nonneg; lia).
    pose proof (Pos2Z.is_pos m) as M.
    destruct D as [[P ->] | [P D]].
    + specialize (K e P). destruct s; unfold cond_Zopp; split;
        try reflexivity; try discriminate; nia.
    + specialize (K (- e)%Z ltac:(lia)). destruct s; unfold cond_Zopp in D;
        split; try reflexivity; try discriminate; nia.
Qed.

(** ** The validators *)

Lemma checkRequired_absent (f : JsString) (v : JsValue) (flag : option bool) :
  absent v -> checkRequired f v flag = Throw (missing_error f).
Proof. intros [-> | ->]; reflexivity. Qed.

Lemma checkRequired_presence_only (f : JsString) (v : JsValue) :
  ~ absent v -> checkRequired f v (Some false) = Return tt.
Proof.
  unfold absent. intros H.
  destruct v; try reflexivity; exfalso; apply H; auto.
Qed.

Lemma checkRequired_string (f s : JsString) (flag : option bool) :
  checkRequired f (VString s) flag =
  if param true flag && blank s then Throw (missing_error f) else Return tt.
Proof.
  unfold checkRequired, throw_if, bind. simpl.
  destruct (param true flag); simpl; [|reflexivity].
  rewrite str_eqb_nil.
  destruct (blank s) eqn:B.
  - apply trim_nil_blank in B. rewrite str_eqb_nil, B.
    destruct s; reflexivity.
  - assert (T : trim s <> []) by (rewrite trim_nil_blank, B; discriminate).
    rewrite str_eqb_nil. destruct s; [discriminate B|].
    destruct (trim (n :: s)); [contradiction | reflexivity].
Qed.

Lemma checkRequired_not_string (f : JsString) (v : JsValue) (flag : option bool) :
  ~ absent v -> ~ is_string v -> checkRequired f v flag = Return tt.
Proof.
  unfold absent, is_string. intros A S.
  destruct v; try (exfalso; apply A; auto; fail);
    try (exfalso; apply S; eauto; fail);
    destruct flag as [[|]|]; reflexivity.
Qed.

Lemma arrayRequired_array (f : JsString) (elements : list JsValue)
    (flag : option bool) :
  arrayRequired f (VArray elements) flag =
  if param false flag && (List.length elements =? 0)%nat
  then Throw (mkClientError (lit "emtpy_array")
                (f ++ lit " needs to be an array with at least one entry"))
  else Return tt.
Proof. reflexivity. Qed.

Lemma arrayRequired_not_array_error (f : JsString) (v : JsValue)
    (flag : option bool) :
  ~ absent v -> ~ is_array v ->
  arrayRequired f v flag =
  Throw (mkClientError (lit "invalid_value") (f ++ lit " needs to be an array")).
Proof.
  intros A R. unfold arrayRequired. rewrite (checkRequired_presence_only f A).
  destruct v; try reflexivity. exfalso. apply R. now eexists.
Qed.

Lemma integerRequired_not_integer_error (f : JsString) (v : JsValue)
    (flag : option bool) :
  ~ absent v -> Number_isInteger v = false ->
  integerRequired f v flag =
  Throw (mkClientError (lit "invalid_value") (f ++ lit " needs to be an integer")).
Proof.
  intros A I. unfold integerRequired.
  rewrite (checkRequired_presence_only f A), I. reflexivity.
Qed.

Lemma integerRequired_integer (f : JsString) (v : JsValue) (flag : option bool) :
  Number_isInteger v = true ->
  integerRequired f v flag =
  if param true flag && le_zero v
  then Throw (mkClientError (lit "invalid_value")
                (f ++ lit " needs to be a positive integer"))
  else Return tt.
Proof.
  intros I. unfold integerRequired.
  rewrite checkRequired_presence_only, I.
  - reflexivity.
  - intros [-> | ->]; discriminate I.
Qed.

(** What [objectRequired] does on each kind of value. *)
Lemma objectRequired_cases (f : JsString) (v : JsValue) (flag : option bool) :
  objectRequired f v flag =
  match v with
  | VNull | VUndefined => Throw (missing_error f)
  | VArray _ => Return tt
  | VObject _ =>
      if param false flag
      then Throw (mkClientError (lit "invalid_value")
                    (f ++ lit " needs to be an array"))
      else Return tt
  | _ => Throw (mkClientError (lit "invalid_value")
                  (f ++ lit " needs to be an object"))
  end.
Proof. destruct v; try reflexivity; destruct flag as [[|]|]; reflexivity. Qed.

(** *** Absent values *)

(** C9.  For [null] and for [undefined], whatever the field name and the
    flag, each of the four validators raises the error of the presence
    check, whose code is [missing_required_value]: no type-specific check
    is reached. *)
Theorem validators_absent_value (f : JsString) (v : JsValue)
    (flag : option bool) (H : absent v) :
  code (missing_error f) = lit "missing_required_value" /\
  checkRequired f v flag = Throw (missing_error f) /\
  arrayRequired f v flag = Throw (missing_error f) /\
  integerRequired f v flag = Throw (missing_error f) /\
  objectRequired f v flag = Throw (missing_error f).
Proof.
  split; [reflexivity|].
  unfold arrayRequired, integerRequired, objectRequired.
  rewrite !(checkRequired_absent f _ H). repeat split.
Qed.

Lemma validators_absent_value_witness :
  absent VNull /\
  raised_code (integerRequired (lit "f") VNull None)
    = Some (lit "missing_required_value").
Proof.
  split; [now left|].
  destruct (validators_absent_value (lit "f") None (or_introl eq_refl))
    as (_ & _ & _ & -> & _).
  reflexivity.
Defined.

(** *** [checkRequired] *)

(** C6.  [checkRequired] raises [missing_required_value] for [null] and
    [undefined]; with [checkEmptyString] enabled (the default) it raises the
    same code for a string that is empty or consists of white space only;
    every string that is not blank passes, whatever the flag; and the string
    of three spaces passes when the flag is disabled. *)
Theorem checkRequired_missing_value :
  (forall f v flag, absent v ->
     raised_code (checkRequired f v flag) = Some (lit "missing_required_value")) /\
  (forall f s flag, param true flag = true -> blank s = true ->
     raised_code (checkRequired f (VString s) flag)
       = Some (lit "missing_required_value")) /\
  (forall f s flag, blank s = false ->
     checkRequired f (VString s) flag = Return tt) /\
  raised_code (checkRequired (lit "f") (VString (lit "   ")) (Some true))
    = Some (lit "missing_required_value") /\
  checkRequired (lit "f") (VString (lit "   ")) (Some false) = Return tt.
Proof.
  repeat split.
  - intros f v flag H. now rewrite (checkRequired_absent f flag H).
  - intros f s flag P B. now rewrite checkRequired_string, P, B.
  - intros f s flag B. rewrite checkRequired_string, B.
    now destruct (param true flag).
Qed.

Lemma checkRequired_missing_value_witness :
  (absent VUndefined /\
   raised_code (checkRequired (lit "f") VUndefined None)
     = Some (lit "missing_required_value")) /\
  (blank (lit " ") = true /\
   raised_code (checkRequired (lit "f") (VString (lit " ")) None)
     = Some (lit "missing_required_value")) /\
  (blank (lit "x") = false /\
   checkRequired (lit "f") (VString (lit "x")) None = Return tt).
Proof.
  destruct checkRequired_missing_value as (A & B & C & _).
  split; [|split].
  - split; [now right | apply A; now right].
  - split; [reflexivity | apply B; reflexivity].
  - split; [reflexivity | apply C; reflexivity].
Defined.

(** C10.  [checkRequired] treats only [null] and [undefined] as absent:
    every value that is neither of them nor a string passes, whatever the
    flag (so do the falsy values [0], [false] and [NaN]), and the empty
    string passes when [checkEmptyString] is disabled. *)
Theorem checkRequired_only_null_undefined :
  (forall f v flag, ~ absent v -> ~ is_string v ->
     checkRequired f v flag = Return tt) /\
  (forall f flag,
     checkRequired f (VNumber (number 0 0)) flag = Return tt /\
     checkRequired f (VBoolean false) flag = Return tt /\
     checkRequired f (VNumber NaN) flag = Return tt) /\
  (forall f, checkRequired f (VString (lit "")) (Some false) = Return tt).
Proof.
  split; [|split].
  - intros f v flag A S. now apply checkRequired_not_string.
  - intros f flag. repeat split; destruct flag as [[|]|]; reflexivity.
  - reflexivity.
Qed.

Lemma checkRequired_only_null_undefined_witness :
  ~ absent (VObject []) /\ ~ is_string (VObject []) /\
  checkRequired (lit "f") (VObject []) None = Return tt.
Proof.
  assert (A : ~ absent (VObject [])) by (intros [?|?]; discriminate).
  assert (S : ~ is_string (VObject [])) by (intros [? ?]; discriminate).
  split; [exact A | split; [exact S|]].
  exact (proj1 checkRequired_only_null_undefined (lit "f") (VObject []) None A S).
Defined.

(** *** [arrayRequired] *)

(** C8.  [arrayRequired] starts with the presence check, string emptiness
    not checked: an error of that check is the error of [arrayRequired],
    and every string, the empty one too, passes it.  Every value that is
    present and not an array is then refused with [invalid_value], as is
    the string ["not-an-array"]. *)
Theorem arrayRequired_not_array :
  (forall f v flag e, checkRequired f v (Some false) = Throw e ->
     arrayRequired f v flag = Throw e) /\
  (forall f s, checkRequired f (VString s) (Some false) = Return tt) /\
  (forall f v flag, ~ absent v -> ~ is_array v ->
     raised_code (arrayRequired f v flag) = Some (lit "invalid_value")) /\
  raised_code (arrayRequired (lit "f") (VString (lit "not-an-array")) None)
    = Some (lit "invalid_value").
Proof.
  split; [|split; [|split]].
  - intros f v flag e H. unfold arrayRequired. now rewrite H.
  - intros f s. now rewrite checkRequired_string.
  - intros f v flag A R. now rewrite arrayRequired_not_array_error.
  - reflexivity.
Qed.

Lemma arrayRequired_not_array_witness :
  (checkRequired (lit "f") VNull (Some false) = Throw (missing_error (lit "f")) /\
   arrayRequired (lit "f") VNull None = Throw (missing_error (lit "f"))) /\
  (~ absent (VString []) /\ ~ is_array (VString []) /\
   raised_code (arrayRequired (lit "f") (VString []) (Some true))
     = Some (lit "invalid_value")).
Proof.
  destruct arrayRequired_not_array as (P & _ & Q & _).
  assert (A : ~ absent (VString [])) by (intros [?|?]; discriminate).
  assert (R : ~ is_array (VString [])) by (intros [? ?]; discriminate).
  split.
  - split; [reflexivity | apply P; reflexivity].
  - split; [exact A | split; [exact R | apply Q; assumption]].
Defined.

(** C1, on the code.  For the empty array with [checkEmptyArray] enabled,
    [arrayRequired] raises an error whose code is the misspelt
    [emtpy_array], which is not the code [empty_array]; with the default
    flag the empty array passes. *)
Theorem arrayRequired_empty_array_code :
  forall f,
    raised_code (arrayRequired f (VArray []) (Some true))
      = Some (lit "emtpy_array") /\
    raised_code (arrayRequired f (VArray []) (Some true))
      <> Some (lit "empty_array") /\
    arrayRequired f (VArray []) None = Return tt.
Proof. intros f. repeat split. discriminate. Qed.

(** *** [integerRequired] *)

(** C7.  [integerRequired] raises [invalid_value] for every present value
    that is not a whole number (so for 3.5), and, with [checkPositive]
    enabled (the default), for every number whose value is an integer
    [z <= 0] (so for -2); -2 passes with the flag disabled and 5 passes
    with the default. *)
Theorem integerRequired_invalid_value :
  (forall f v flag, ~ absent v -> ~ whole_number v ->
     raised_code (integerRequired f v flag) = Some (lit "invalid_value")) /\
  (forall f x z flag, param true flag = true -> denotes x z -> (z <= 0)%Z ->
     raised_code (integerRequired f (VNumber x) flag)
       = Some (lit "invalid_value")) /\
  raised_code (integerRequired (lit "f") (VNumber (number 7 (-1))) None)
    = Some (lit "invalid_value") /\
  raised_code (integerRequired (lit "f") (VNumber (number (-2) 0)) None)
    = Some (lit "invalid_value") /\
  integerRequired (lit "f") (VNumber (number (-2) 0)) (Some false) = Return tt /\
  integerRequired (lit "f") (VNumber (number 5 0)) None = Return tt.
Proof.
  split; [|split; [|repeat split]].
  - intros f v flag A W.
    rewrite integerRequired_not_integer_error; [reflexivity | assumption |].
    destruct (Number_isInteger v) eqn:I; [|reflexivity].
    now apply Number_isInteger_whole in I.
  - intros f x z flag P D L.
    rewrite integerRequired_integer, P.
    + apply (@le_zero_whole x z D) in L. now rewrite L.
    + apply Number_isInteger_whole. now exists x, z.
Qed.

Lemma integerRequired_invalid_value_witness :
  (~ absent (VNumber (number 7 (-1))) /\ ~ whole_number (VNumber (number 7 (-1))) /\
   raised_code (integerRequired (lit "f") (VNumber (number 7 (-1))) (Some false))
     = Some (lit "invalid_value")) /\
  (denotes (number (-2) 0) (-2) /\ (-2 <= 0)%Z /\
   raised_code (integerRequired (lit "f") (VNumber (number (-2) 0)) None)
     = Some (lit "invalid_value")).
Proof.
  destruct integerRequired_invalid_value as (P & Q & _).
  assert (A : ~ absent (VNumber (number 7 (-1)))) by (intros [?|?]; discriminate).
  assert (W : ~ whole_number (VNumber (number 7 (-1))))
    by (intros W; apply Number_isInteger_whole in W; discriminate W).
  assert (D : denotes (number (-2) 0) (-2)) by (right; split; reflexivity).
  split.
  - split; [exact A | split; [exact W | apply P; assumption]].
  - split; [exact D | split; [lia | apply (Q _ _ (-2)%Z); [reflexivity | exact D | lia]]].
Defined.

(** What [integerRequired] accepts: the numbers whose value is an integer
    [z], provided [0 < z] when [checkPositive] is enabled. *)
Lemma integerRequired_accepts (f : JsString) (x : JsNumber) (z : Z)
    (flag : option bool) :
  denotes x z ->
  integerRequired f (VNumber x) flag = Return tt <->
  (param true flag = true -> (0 < z)%Z).
Proof.
  intros D. rewrite integerRequired_integer
    by (apply Number_isInteger_whole; now exists x, z).
  pose proof (@le_zero_whole x z D) as L.
  destruct (param true flag), (le_zero (VNumber x)); simpl; split;
    try reflexivity; try discriminate; intros H.
  - assert (z <= 0)%Z by now apply L. specialize (H eq_refl). lia.
  - intros _. destruct (Z.leb_spec z 0) as [K | K]; [|assumption].
    apply L in K. discriminate.
Qed.

(** *** [objectRequired] *)

(** C2, as the code has it.  For every array value [objectRequired]
    with the default [checkArray] returns normally; so does
    [objectRequired("f", [])]. *)
Theorem objectRequired_array_default :
  (forall f elements, objectRequired f (VArray elements) None = Return tt) /\
  objectRequired (lit "f") (VArray []) None = Return tt.
Proof. split; reflexivity. Qed.

(** With the default flag the empty array is not refused. *)
Lemma objectRequired_array_not_refused :
  raised_code (objectRequired (lit "f") (VArray []) None)
    <> Some (lit "invalid_value").
Proof. discriminate. Qed.

(** C3, as the code has it.  Enabling [checkArray] only narrows what
    [objectRequired] accepts: a value accepted with the flag enabled is
    accepted with it disabled; every array is accepted with the flag
    enabled; the empty plain object is accepted with the flag disabled and
    refused with [invalid_value] with the flag enabled. *)
Theorem objectRequired_checkArray_narrows :
  (forall f v, objectRequired f v (Some true) = Return tt ->
     objectRequired f v (Some false) = Return tt) /\
  (forall f elements, objectRequired f (VArray elements) (Some true) = Return tt) /\
  objectRequired (lit "f") (VObject []) (Some false) = Return tt /\
  raised_code (objectRequired (lit "f") (VObject []) (Some true))
    = Some (lit "invalid_value").
Proof.
  split; [|repeat split].
  intros f v. rewrite !objectRequired_cases.
  destruct v; simpl; try discriminate; reflexivity.
Qed.

Lemma objectRequired_checkArray_narrows_witness :
  objectRequired (lit "f") (VArray [VNull]) (Some true) = Return tt /\
  objectRequired (lit "f") (VArray [VNull]) (Some false) = Return tt.
Proof.
  split; [reflexivity|].
  apply (proj1 objectRequired_checkArray_narrows). reflexivity.
Defined.

(** Enabling [checkArray] does not widen: the empty plain object passes
    with the flag disabled and is refused with it enabled. *)
Lemma objectRequired_checkArray_not_widening :
  objectRequired (lit "f") (VObject []) (Some false) = Return tt /\
  objectRequired (lit "f") (VObject []) (Some true) <> Return tt.
Proof. split; [reflexivity | discriminate]. Qed.

(** The examples of the specification for [objectRequired]. *)
Example objectRequired_examples :
  objectRequired (lit "f") (VObject []) None = Return tt /\
  objectRequired (lit "f") (VArray []) (Some true) = Return tt.
Proof. split; reflexivity. Qed.

(** *** The errors raised *)

Lemma well_formed_throw_if (f : JsString) (cond : bool) (c rest : JsString) :
  In c raised_codes -> well_formed_errors f (throw_if cond c (f ++ rest)).
Proof.
  intros H e. unfold throw_if. destruct cond; [|discriminate].
  intros E. injection E as <-. split; [exact H | now exists rest].
Qed.

Lemma well_formed_bind (f : JsString) (c k : Completion unit) :
  well_formed_errors f c -> well_formed_errors f k ->
  well_formed_errors f (c ;; k).
Proof.
  intros Hc Hk e. destruct c as [[]|e']; simpl; [apply Hk|].
  intros E. apply Hc. exact E.
Qed.

Create HintDb validators.
#[local] Hint Resolve well_formed_throw_if well_formed_bind : validators.
#[local] Hint Extern 1 (In _ raised_codes) => (vm_compute; tauto) : validators.

Lemma checkRequired_well_formed (f : JsString) (v : JsValue) (flag : option bool) :
  well_formed_errors f (checkRequired f v flag).
Proof. unfold checkRequired. auto with validators. Qed.

#[local] Hint Resolve checkRequired_well_formed : validators.

(** X1.  Every error raised by a validator has one of the three codes of
    the source and a message that starts with the caller's field name. *)
Lemma validators_well_formed (f : JsString) (v : JsValue) (flag : option bool) :
  well_formed_errors f (checkRequired f v flag) /\
  well_formed_errors f (arrayRequired f v flag) /\
  well_formed_errors f (integerRequired f v flag) /\
  well_formed_errors f (objectRequired f v flag).
Proof.
  unfold arrayRequired, integerRequired, objectRequired.
  split; [|split; [|split]]; auto 6 with validators.
Qed.

(** C5, on the code.  The error [arrayRequired] raises for the empty array
    with [checkEmptyArray] enabled carries the code [emtpy_array], which is
    none of [missing_required_value], [invalid_value] and [empty_array];
    its message does start with the field name. *)
Theorem validators_code_outside_taxonomy :
  exists e,
    arrayRequired (lit "f") (VArray []) (Some true) = Throw e /\
    ~ In (code e) taxonomy /\
    locatable (lit "f") e.
Proof.
  eexists. split; [reflexivity|]. split.
  - intros H. vm_compute in H. decompose [or] H; try discriminate; assumption.
  - now eexists.
Qed.

Lemma validators_well_formed_witness :
  In (lit "invalid_value") raised_codes /\
  locatable (lit "f")
    (mkClientError (lit "invalid_value") (lit "f needs to be an integer")).
Proof.
  destruct (validators_well_formed (lit "f") (VBoolean true) None)
    as (_ & _ & W & _).
  exact (W _ eq_refl).
Defined.

(** ** What each validator accepts *)

(** X2.  [checkRequired] returns normally exactly for the values that are
    neither [null] nor [undefined] and, when [checkEmptyString] is enabled
    (the default), are not a blank string. *)
Theorem checkRequired_accepts (f : JsString) (v : JsValue) (flag : option bool) :
  checkRequired f v flag = Return tt <->
  ~ absent v /\
  (param true flag = true -> forall s, v = VString s -> blank s = false).
Proof.
  destruct v as [| | | | |s| | | |];
    try (rewrite checkRequired_not_string;
         [ split; [intros _; split; [intros [?|?]; discriminate | discriminate]
                  | reflexivity]
         | intros [?|?]; discriminate
         | intros [? ?]; discriminate ]).
  - split; [discriminate | intros [A _]; exfalso; apply A; now right].
  - split; [discriminate | intros [A _]; exfalso; apply A; now left].
  - rewrite checkRequired_string. split.
    + intros H. split; [intros [?|?]; discriminate|].
      intros P t E. injection E as <-. rewrite P in H.
      destruct (blank s); [discriminate H | reflexivity].
    + intros [_ H]. destruct (param true flag); [|reflexivity].
      now rewrite (H eq_refl s eq_refl).
Qed.

(** X3.  [arrayRequired] returns normally exactly for the arrays, which
    must have at least one element when [checkEmptyArray] is enabled. *)
Theorem arrayRequired_accepts (f : JsString) (v : JsValue) (flag : option bool) :
  arrayRequired f v flag = Return tt <->
  exists elements,
    v = VArray elements /\ (param false flag = true -> elements <> []).
Proof.
  split.
  - intros H. destruct v as [| | | | | | | |elements|];
      try (destruct flag as [[|]|]; discriminate H).
    exists elements. split; [reflexivity|]. intros P ->.
    rewrite arrayRequired_array, P in H. discriminate H.
  - intros (elements & -> & H). rewrite arrayRequired_array.
    destruct (param false flag); [|reflexivity].
    destruct elements; [now contradiction (H eq_refl) | reflexivity].
Qed.

(** X4.  [integerRequired] returns normally exactly for the numbers whose
    value is an integer [z], with [0 < z] when [checkPositive] is enabled
    (the default). *)
Theorem integerRequired_accepts_exactly (f : JsString) (v : JsValue)
    (flag : option bool) :
  integerRequired f v flag = Return tt <->
  exists x z,
    v = VNumber x /\ denotes x z /\ (param true flag = true -> (0 < z)%Z).
Proof.
  split.
  - intros H. destruct (Number_isInteger v) eqn:I.
    + apply Number_isInteger_whole in I as (x & z & -> & D).
      exists x, z. split; [reflexivity | split; [exact D|]].
      exact (proj1 (@integerRequired_accepts f x z flag D) H).
    + destruct v; try (destruct flag as [[|]|]; discriminate H).
      rewrite integerRequired_not_integer_error in H;
        [discriminate H | intros [?|?]; discriminate | exact I].
  - intros (x & z & -> & D & H).
    exact (proj2 (@integerRequired_accepts f x z flag D) H).
Qed.

(** X5.  [objectRequired] returns normally exactly for the arrays and,
    when [checkArray] is disabled (the default), for the other objects. *)
Theorem objectRequired_accepts (f : JsString) (v : JsValue) (flag : option bool) :
  objectRequired f v flag = Return tt <->
  is_array v \/
  ((exists properties, v = VObject properties) /\ param false flag = false).
Proof.
  rewrite objectRequired_cases. unfold is_array. split.
  - destruct v; try discriminate.
    + intros _. left. now eexists.
    + destruct (param false flag); [discriminate|].
      intros _. right. split; [now eexists | reflexivity].
  - intros [(elements & ->) | ((properties & ->) & ->)]; reflexivity.
Qed.

(** ** How the validators relate *)

Lemma integerRequired_flag_free (f : JsString) (v : JsValue) (a b : option bool) :
  Number_isInteger v = false -> integerRequired f v a = integerRequired f v b.
Proof.
  intros I. unfold integerRequired, bind, throw_if. rewrite I. simpl.
  destruct (checkRequired f v (Some false)); reflexivity.
Qed.

(** X6.  What [arrayRequired] accepts, [objectRequired] and [checkRequired]
    accept too, whatever their flags; what [objectRequired] accepts,
    [checkRequired] accepts; what [integerRequired] accepts, [checkRequired]
    accepts and the array and object validators refuse, and conversely
    [integerRequired] refuses what they accept. *)
Theorem validators_acceptance_hierarchy (f : JsString) (v : JsValue)
    (a b : option bool) :
  (arrayRequired f v a = Return tt ->
     objectRequired f v b = Return tt /\
     checkRequired f v b = Return tt /\
     integerRequired f v b <> Return tt) /\
  (objectRequired f v a = Return tt ->
     checkRequired f v b = Return tt /\
     integerRequired f v b <> Return tt) /\
  (integerRequired f v a = Return tt ->
     checkRequired f v b = Return tt /\
     arrayRequired f v b <> Return tt /\
     objectRequired f v b <> Return tt).
Proof.
  split; [|split]; intros H.
  - destruct v; try (destruct a as [[|]|]; discriminate H).
    repeat split; destruct b as [[|]|]; try reflexivity; discriminate.
  - rewrite objectRequired_cases in H.
    destruct v; try discriminate H;
      repeat split; destruct b as [[|]|]; try reflexivity; discriminate.
  - destruct v; try (destruct a as [[|]|]; discriminate H).
    repeat split; destruct b as [[|]|]; try reflexivity; discriminate.
Qed.

Lemma validators_acceptance_hierarchy_witness :
  arrayRequired (lit "f") (VArray [VNull]) (Some true) = Return tt /\
  objectRequired (lit "f") (VArray [VNull]) (Some true) = Return tt /\
  integerRequired (lit "f") (VArray [VNull]) None <> Return tt.
Proof.
  assert (H : arrayRequired (lit "f") (VArray [VNull]) (Some true) = Return tt)
    by reflexivity.
  split; [exact H|].
  destruct (proj1 (validators_acceptance_hierarchy (lit "f") (VArray [VNull])
                     (Some true) (Some true)) H) as (O & _ & _).
  destruct (proj1 (validators_acceptance_hierarchy (lit "f") (VArray [VNull])
                     (Some true) None) H) as (_ & _ & I).
  split; [exact O | exact I].
Defined.

(** X7.  The strictness flag of a validator only adds a final check: an
    error raised with the flag disabled is raised unchanged whatever the
    flag, and a value accepted with the flag enabled is accepted whatever
    the flag. *)
Theorem validators_flag_only_narrows (f : JsString) (v : JsValue)
    (flag : option bool) :
  (forall e, checkRequired f v (Some false) = Throw e ->
     checkRequired f v flag = Throw e) /\
  (forall e, arrayRequired f v (Some false) = Throw e ->
     arrayRequired f v flag = Throw e) /\
  (forall e, integerRequired f v (Some false) = Throw e ->
     integerRequired f v flag = Throw e) /\
  (forall e, objectRequired f v (Some false) = Throw e ->
     objectRequired f v flag = Throw e) /\
  (checkRequired f v (Some true) = Return tt ->
     checkRequired f v flag = Return tt) /\
  (arrayRequired f v (Some true) = Return tt ->
     arrayRequired f v flag = Return tt) /\
  (integerRequired f v (Some true) = Return tt ->
     integerRequired f v flag = Return tt) /\
  (objectRequired f v (Some true) = Return tt ->
     objectRequired f v flag = Return tt).
Proof.
  repeat match goal with |- _ /\ _ => split end.
  - intros e H. destruct v; try discriminate H;
      try (rewrite checkRequired_string in H; discriminate H);
      destruct flag as [[|]|]; exact H.
  - intros e H. destruct v; try discriminate H;
      destruct flag as [[|]|]; exact H.
  - intros e H. destruct (Number_isInteger v) eqn:I.
    + rewrite integerRequired_integer in H by exact I. discriminate H.
    + now rewrite (@integerRequired_flag_free f v flag (Some false) I).
  - intros e. rewrite !objectRequired_cases.
    destruct v; try discriminate; auto.
  - intros H. destruct v; try discriminate H;
      try (destruct flag as [[|]|]; reflexivity).
    rewrite checkRequired_string in *. simpl in H.
    destruct (blank s); [discriminate H|]. now rewrite andb_false_r.
  - intros H. destruct v; try discriminate H.
    rewrite arrayRequired_array in *. simpl in H.
    destruct (List.length elements =? 0)%nat; [discriminate H|].
    now rewrite andb_false_r.
  - intros H. destruct (Number_isInteger v) eqn:I.
    + rewrite integerRequired_integer in * by exact I. simpl in H.
      destruct (le_zero v); [discriminate H|]. now rewrite andb_false_r.
    + now rewrite (@integerRequired_flag_free f v flag (Some true) I).
  - rewrite !objectRequired_cases.
    destruct v; try discriminate; auto.
Qed.

Lemma validators_flag_only_narrows_witness :
  integerRequired (lit "f") (VNumber (number 5 0)) (Some true) = Return tt /\
  integerRequired (lit "f") (VNumber (number 5 0)) None = Return tt.
Proof.
  assert (H : integerRequired (lit "f") (VNumber (number 5 0)) (Some true)
              = Return tt) by reflexivity.
  split; [exact H|].
  destruct (validators_flag_only_narrows (lit "f") (VNumber (number 5 0)) None)
    as (_ & _ & _ & _ & _ & _ & I & _).
  exact (I H).
Defined.

(** ** More on the URL helpers *)

Lemma blank_app (a b : JsString) : blank (a ++ b) = blank a && blank b.
Proof. apply forallb_app. Qed.

Lemma trimStart_blank_app (a x : JsString) :
  blank a = true -> trimStart (a ++ x) = trimStart x.
Proof.
  induction a as [|c a IH]; simpl; [reflexivity|].
  intros H. apply andb_true_iff in H as [-> H]. now apply IH.
Qed.

Lemma trimStart_app (x b : JsString) :
  blank x = false -> trimStart (x ++ b) = trimStart x ++ b.
Proof.
  induction x as [|c x IH]; simpl; [discriminate|].
  destruct (isWhiteSpace c); simpl; [exact IH | reflexivity].
Qed.

Lemma trimEnd_app_blank (x b : JsString) :
  blank b = true -> trimEnd (x ++ b) = trimEnd x.
Proof.
  induction b as [|c b IH] using rev_ind; intros H.
  - now rewrite app_nil_r.
  - rewrite blank_app in H. apply andb_true_iff in H as [Hb Hc].
    simpl in Hc. rewrite andb_true_r in Hc.
    rewrite app_assoc, trimEnd_snoc, Hc. now apply IH.
Qed.

Lemma trim_padding (a x b : JsString) :
  blank a = true -> blank b = true -> trim (a ++ x ++ b) = trim x.
Proof.
  intros Ha Hb. unfold trim. rewrite trimStart_blank_app by exact Ha.
  destruct (blank x) eqn:Hx.
  - assert (E : forall y, blank y = true -> trimEnd (trimStart y) = [])
      by (intros y Hy; now apply trim_nil_blank).
    rewrite (E x Hx). apply E. now rewrite blank_app, Hx, Hb.
  - rewrite trimStart_app by exact Hx. now apply trimEnd_app_blank.
Qed.

Lemma removeTrailingSlash_split (x : JsString) :
  exists t, x = removeTrailingSlash x ++ t /\ (t = [] \/ t = [slash]).
Proof.
  destruct (snoc_cases x) as [-> | (p & c & ->)]; [now exists []; auto|].
  rewrite removeTrailingSlash_snoc.
  destruct (N.eqb_spec c slash) as [-> | _].
  - exists [slash]. auto.
  - exists []. rewrite app_nil_r. auto.
Qed.

(** X8.  [normalizeUrl] does not depend on the white space around its
    argument. *)
Theorem normalizeUrl_padding (a x b : JsString) :
  blank a = true -> blank b = true ->
  normalizeUrl (a ++ x ++ b) = normalizeUrl x.
Proof. intros Ha Hb. unfold normalizeUrl. now rewrite trim_padding. Qed.

Lemma normalizeUrl_padding_witness :
  blank (lit "  ") = true /\ blank (lit " ") = true /\
  normalizeUrl (lit "  " ++ lit "http://x/" ++ lit " ")
    = normalizeUrl (lit "http://x/").
Proof.
  split; [reflexivity | split; [reflexivity|]].
  apply normalizeUrl_padding; reflexivity.
Defined.

(** X9.  The strings [normalizeUrl] leaves unchanged are exactly those
    that neither start with white space nor end with white space or with a
    slash. *)
Theorem normalizeUrl_unchanged (x : JsString) :
  normalizeUrl x = x <->
  starts_blank x = false /\
  isWhiteSpace (last_unit x) = false /\
  last_unit x <> slash.
Proof.
  split.
  - intros H. assert (S : starts_blank x = false)
      by (rewrite <- H; apply normalizeUrl_starts).
    apply (@normalizeUrl_fixed x S) in H. tauto.
  - intros (S & W & L). apply (@normalizeUrl_fixed x S). tauto.
Qed.

(** X10.  [normalizeUrl] only removes from the ends: its argument is its
    result between a blank prefix and a suffix made of at most one slash
    followed by white space; and [removeTrailingSlash] removes nothing or
    one final slash. *)
Theorem url_helpers_remove_only_ends (x : JsString) :
  (exists t, x = removeTrailingSlash x ++ t /\ (t = [] \/ t = [slash])) /\
  (exists a t b,
     x = a ++ normalizeUrl x ++ t ++ b /\
     blank a = true /\ blank b = true /\ (t = [] \/ t = [slash])).
Proof.
  split; [apply removeTrailingSlash_split|].
  destruct (trim_surrounding x) as ((a & b & E & Ha & Hb) & _ & _).
  destruct (removeTrailingSlash_split (trim x)) as (t & Et & Ht).
  exists a, t, b. repeat split; try assumption.
  unfold normalizeUrl.
  rewrite (app_assoc (removeTrailingSlash (trim x))), <- Et. exact E.
Qed.

(** X11.  Each call of [removeTrailingSlash] strips one slash: after [k]
    calls, a string that ended with exactly [n] slashes ends with
    [n - k] of them. *)
Theorem removeTrailingSlash_iterated (s : JsString) (n k : nat) :
  last_unit s <> slash ->
  Nat.iter k removeTrailingSlash (s ++ repeat slash n)
    = s ++ repeat slash (n - k).
Proof.
  intros L. induction k as [|k IH]; simpl.
  - now rewrite Nat.sub_0_r.
  - rewrite IH. destruct (n - k)%nat as [|m] eqn:E.
    + replace (n - S k)%nat with 0%nat by lia. simpl.
      rewrite app_nil_r. now apply removeTrailingSlash_fixed.
    + replace (n - S k)%nat with m by lia.
      change (repeat slash (S m)) with (slash :: repeat slash m).
      rewrite repeat_cons, app_assoc, removeTrailingSlash_snoc.
      unfold slash at 1. now rewrite N.eqb_refl.
Qed.

Lemma removeTrailingSlash_iterated_witness :
  last_unit (lit "a") <> slash /\
  Nat.iter 2 removeTrailingSlash (lit "a" ++ repeat slash 3)
    = lit "a" ++ repeat slash 1.
Proof.
  assert (L : last_unit (lit "a") <> slash) by (vm_compute; discriminate).
  split; [exact L|]. exact (@removeTrailingSlash_iterated (lit "a") 3 2 L).
Defined.

(** ** [getParamValue] *)

(** *** Matching *)

Lemma matcher_literal (p s : JsString) (caps : Captures)
    (k : JsString -> Captures -> option Captures) :
  matcher (literal p) s caps k =
  match strip_prefix p s with
  | Some s' => k s' caps
  | None => None
  end.
Proof.
  revert s. induction p as [|c p IH]; intros s; simpl; [reflexivity|].
  destruct s as [|x s]; [reflexivity|].
  destruct (x =? c)%N; [apply IH | reflexivity].
Qed.

Lemma matcher_star_total (negated : bool) (members : list N) (s : JsString)
    (caps : Captures) (k : JsString -> Captures -> option Captures) :
  (forall s', k s' caps <> None) ->
  matcher (StarClass negated members) s caps k
  = k (drop_while (in_class negated members) s) caps.
Proof.
  intros K. induction s as [|x s IH]; simpl; [reflexivity|].
  destruct (in_class negated members x); [|reflexivity].
  simpl in IH. rewrite IH.
  destruct (k (drop_while (in_class negated members) s) caps) eqn:E;
    [reflexivity | now apply K in E].
Qed.

Lemma length_drop_while (p : N -> bool) (s : JsString) :
  (List.length (drop_while p s) <= List.length s)%nat.
Proof.
  induction s as [|c r IH]; simpl; [lia|].
  destruct (p c); simpl; lia.
Qed.

Lemma consumed_drop_while (p : N -> bool) (s : JsString) :
  consumed s (drop_while p s) = take_while p s.
Proof.
  unfold consumed. induction s as [|c r IH]; [reflexivity|].
  cbn [drop_while take_while]. destruct (p c).
  - pose proof (length_drop_while p r).
    cbn [List.length].
    replace (S (List.length r) - List.length (drop_while p r))%nat
      with (S (List.length r - List.length (drop_while p r))) by lia.
    cbn [firstn]. now rewrite IH.
  - now rewrite Nat.sub_diag.
Qed.

(** At one position, the pattern for a literal name gives as group 2 what
    [match_at] says. *)
Lemma matcher_param_pattern (name s : JsString) (whole : JsString -> JsString) :
  option_map (capture 2)
    (matcher (param_pattern (literal name)) s []
       (fun s' caps => Some ((0%nat, whole s') :: caps)))
  = match_at name s.
Proof.
  destruct s as [|c rest]; [reflexivity|].
  unfold param_pattern, match_at, separator.
  remember (StarClass true (lit "&#")) as star eqn:Star.
  cbn [matcher]. destruct (in_class false (lit "?&#") c); [|reflexivity].
  rewrite matcher_literal.
  destruct (strip_prefix name rest) as [after|]; [|reflexivity].
  destruct after as [|d v]; [reflexivity|].
  unfold value_after, equals_sign, ampersand, hash_sign.
  destruct (d =? 61)%N eqn:E61.
  - subst star. rewrite matcher_star_total by discriminate.
    cbn [option_map capture Nat.eqb]. now rewrite consumed_drop_while.
  - destruct (d =? 38)%N eqn:E38; [reflexivity|].
    destruct (d =? 35)%N eqn:E35; reflexivity.
Qed.

Lemma exec_param_pattern (name s : JsString) :
  option_map (capture 2) (exec (param_pattern (literal name)) s)
  = find_param name s.
Proof.
  induction s as [|c rest IH].
  - reflexivity.
  - cbn [exec find_param].
    rewrite <- (matcher_param_pattern name (c :: rest) (consumed (c :: rest))).
    destruct (matcher (param_pattern (literal name)) (c :: rest) [] _) as [caps|];
      [reflexivity | exact IH].
Qed.

Lemma not_syntax_not_backslash (c : N) :
  isSyntaxCharacter c = false -> (c =? backslash)%N = false.
Proof.
  intros H. destruct (N.eqb_spec c backslash) as [-> | _];
    [discriminate H | reflexivity].
Qed.

Lemma parse_escaped_name (name : JsString) :
  plain_name name = true ->
  parse_characters (escape_brackets name) = Some (literal name).
Proof.
  induction name as [|c r IH]; [reflexivity|].
  intros H. simpl in H. apply andb_true_iff in H as [Hc Hr].
  specialize (IH Hr). unfold escape_brackets in *. simpl flat_map.
  destruct ((c =? 91) || (c =? 93))%N eqn:B.
  - assert (S : isSyntaxCharacter c = true).
    { apply orb_true_iff in B as [B | B]; apply N.eqb_eq in B; now subst c. }
    simpl. rewrite S, IH. reflexivity.
  - apply orb_false_iff in B as [B1 B2]. rewrite B1, B2, !orb_false_r in Hc.
    apply negb_true_iff in Hc.
    simpl. rewrite (not_syntax_not_backslash _ Hc), Hc, IH. reflexivity.
Qed.

(** For a plain name, [getParamValue] decodes the value of the first
    match, if it has a value that is not empty. *)
Lemma getParamValue_find (href name : JsString) :
  name <> [] -> plain_name name = true ->
  getParamValue (Some href) name =
  match find_param name href with
  | Some (Some (c :: v)) => decoded (c :: v)
  | _ => ReturnsNull
  end.
Proof.
  intros N P. unfold getParamValue, RegExp_for.
  destruct name as [|a name']; [contradiction|].
  rewrite (parse_escaped_name _ P). cbn [option_map].
  rewrite <- exec_param_pattern.
  destruct (exec (param_pattern (literal (a :: name'))) href) as [caps|];
    [|reflexivity].
  cbn [option_map]. destruct (capture 2 caps) as [[|c v]|]; reflexivity.
Qed.

(** *** Query strings *)

Lemma find_param_skip (name w s : JsString) :
  no_separator w = true -> find_param name (w ++ s) = find_param name s.
Proof.
  induction w as [|c w IH]; [reflexivity|].
  intros H. simpl in H. apply andb_true_iff in H as [Hc Hw].
  apply negb_true_iff in Hc.
  change ((c :: w) ++ s) with (c :: (w ++ s)).
  cbn [find_param match_at]. rewrite Hc. now apply IH.
Qed.

Lemma key_text_no_separator (s : JsString) :
  key_text s = true -> no_separator s = true.
Proof.
  induction s as [|c s IH]; [reflexivity|]. simpl.
  intros H. apply andb_true_iff in H as [Hc Hs].
  apply andb_true_iff in Hc as [-> _]. now apply IH.
Qed.

Lemma strip_prefix_same (p s : JsString) : strip_prefix p (p ++ s) = Some s.
Proof.
  induction p as [|c p IH]; [reflexivity|]. simpl. now rewrite N.eqb_refl.
Qed.

Lemma take_while_value (v t : JsString) :
  no_separator v = true ->
  t = [] \/ (exists t', t = ampersand :: t') ->
  take_while (in_class true (lit "&#")) (v ++ t) = v.
Proof.
  intros H T. induction v as [|c v IH].
  - destruct T as [-> | (t' & ->)]; reflexivity.
  - simpl in H. apply andb_true_iff in H as [Hc Hv].
    change ((c :: v) ++ t) with (c :: (v ++ t)). cbn [take_while].
    assert (C : in_class true (lit "&#") c = true).
    { unfold separator, in_class in *. simpl in *.
      destruct (c =? 38)%N, (c =? 35)%N, (c =? 63)%N; auto. }
    rewrite C, IH by exact Hv. reflexivity.
Qed.

Lemma key_unit (c : N) :
  negb (separator c) && negb (c =? equals_sign)%N = true ->
  c <> equals_sign /\ c <> ampersand /\ c <> hash_sign.
Proof.
  intros H. repeat split; intros ->; discriminate H.
Qed.

(** At a key other than the name, the pattern does not match. *)
Lemma no_match_at_other_key (name key t : JsString) :
  key_text name = true -> key_text key = true -> key <> name -> after_key t ->
  match strip_prefix name (key ++ t) with
  | Some after => value_after after
  | None => None
  end = None.
Proof.
  intros Hn Hk D T. revert key Hk D.
  induction name as [|a name IH]; intros key Hk D.
  - destruct key as [|b key]; [contradiction|].
    simpl in Hk. apply andb_true_iff in Hk as [Hb _].
    destruct (key_unit _ Hb) as (B1 & B2 & B3).
    simpl. unfold value_after.
    destruct (N.eqb_spec b equals_sign); [contradiction|].
    destruct (N.eqb_spec b ampersand); [contradiction|].
    destruct (N.eqb_spec b hash_sign); [contradiction | reflexivity].
  - simpl in Hn. apply andb_true_iff in Hn as [Ha Hn].
    destruct (key_unit _ Ha) as (A1 & A2 & _).
    destruct key as [|b key].
    + simpl. destruct T as [-> | (c & t' & -> & [-> | ->])]; [reflexivity| |].
      * destruct (N.eqb_spec equals_sign a); [now subst a | reflexivity].
      * destruct (N.eqb_spec ampersand a); [now subst a | reflexivity].
    + simpl in Hk. apply andb_true_iff in Hk as [_ Hk]. simpl.
      destruct (N.eqb_spec b a) as [-> | _]; [|reflexivity].
      apply (IH Hn); [exact Hk | congruence].
Qed.

Lemma find_param_query (name : JsString) (q : list Item) (c : N) :
  name <> [] -> key_text name = true ->
  forallb well_formed_item q = true -> separator c = true ->
  find_param name (c :: render_query q) = first_value name q.
Proof.
  intros Nn Hn. revert c. induction q as [|[key value] q IH]; intros c Hq Hc.
  - cbn [render_query find_param match_at]. rewrite Hc.
    destruct name; [contradiction | reflexivity].
  - cbn [forallb] in Hq. apply andb_true_iff in Hq as [Hi Hq].
    unfold well_formed_item in Hi. cbn [fst snd] in Hi.
    apply andb_true_iff in Hi as [Hk Hv].
    cbn [render_query]. unfold render_item. cbn [fst snd].
    set (rest := match q with
                 | [] => []
                 | _ :: _ => ampersand :: render_query q
                 end).
    assert (R : rest = [] \/ exists t', rest = ampersand :: t')
      by (subst rest; destruct q; [now left | right; now eexists]).
    unfold first_value. cbn [find fst].
    cbn [find_param match_at]. rewrite Hc, <- app_assoc.
    destruct (str_eqb key name) eqn:E.
    + apply str_eqb_eq in E. subst key. rewrite strip_prefix_same.
      destruct value as [v|]; cbn [app option_map snd].
      * unfold value_after. unfold equals_sign at 1. rewrite N.eqb_refl.
        now rewrite (take_while_value _ Hv R).
      * destruct R as [-> | (t' & ->)]; reflexivity.
    + assert (D : key <> name)
        by (intros ->; rewrite (proj2 (str_eqb_eq name name) eq_refl) in E;
            discriminate E).
      rewrite no_match_at_other_key; try assumption.
      * rewrite find_param_skip by now apply key_text_no_separator.
        assert (S : find_param name rest
                    = option_map snd (find (fun i => str_eqb (fst i) name) q)).
        { subst rest. destruct q as [|i q'];
            [reflexivity | apply IH; [exact Hq | reflexivity]]. }
        destruct value as [v|]; [|exact S].
        change ((equals_sign :: v) ++ rest) with ([equals_sign] ++ v ++ rest).
        rewrite !find_param_skip; [exact S | exact Hv | reflexivity].
      * destruct value as [v|].
        -- right. exists equals_sign, (v ++ rest). auto.
        -- destruct R as [-> | (t' & ->)]; [now left|].
           right. exists ampersand, t'. auto.
Qed.

(** *** Decoding *)

Lemma decode_no_percent (s : JsString) :
  no_percent s = true -> decode s 0 = Some s.
Proof.
  induction s as [|c r IH]; [reflexivity|]. simpl.
  intros H. apply andb_true_iff in H as [Hc Hr].
  apply negb_true_iff in Hc. rewrite Hc, (IH Hr). reflexivity.
Qed.



Lemma decode_truncated_escape (v t : JsString) :
  no_percent v = true -> (List.length t < 2)%nat ->
  decode (v ++ percent :: t) 0 = None.
Proof.
  intros H L. induction v as [|c v IH].
  - simpl. destruct t as [|h [|l t]]; [reflexivity | reflexivity |].
    simpl in L. lia.
  - simpl in H. apply andb_true_iff in H as [Hc Hv].
    apply negb_true_iff in Hc.
    change ((c :: v) ++ percent :: t) with (c :: (v ++ percent :: t)).
    cbn [decode]. rewrite Hc, (IH Hv). reflexivity.
Qed.

Lemma no_percent_plus_to_space (v : JsString) :
  no_percent (plus_to_space v) = no_percent v.
Proof.
  induction v as [|c v IH]; [reflexivity|]. simpl. rewrite IH. f_equal.
  destruct (N.eqb_spec c 43) as [-> | _]; reflexivity.
Qed.

(** *** What [getParamValue] returns *)



(** X13.  A value that is not empty and has no [%] is read back as it is
    written in the query string, but for each [+], which becomes a
    space. *)
Theorem getParamValue_reads_back (path name v : JsString) (q : list Item) :
  name <> [] -> plain_name name = true -> key_text name = true ->
  no_separator path = true -> forallb well_formed_item q = true ->
  first_value name q = Some (Some v) -> v <> [] -> no_percent v = true ->
  getParamValue (Some (path ++ question_mark :: render_query q)) name
  = ReturnsString (plus_to_space v).
Proof.
  intros Nn Pn Kn Hp Hq F Nv Pv.
  rewrite getParamValue_find, find_param_skip, find_param_query, F; auto.
  destruct v as [|c v]; [contradiction|].
  unfold decoded, decodeURIComponent.
  rewrite decode_no_percent; [reflexivity|].
  now rewrite no_percent_plus_to_space.
Qed.

Lemma getParamValue_reads_back_witness :
  getParamValue
    (Some (lit "http://x.io/" ++ question_mark ::
           render_query [(lit "page", Some (lit "2")); (lit "q", Some (lit "a+b"))]))
    (lit "q")
  = ReturnsString (lit "a b").
Proof.
  apply (@getParamValue_reads_back (lit "http://x.io/") (lit "q") (lit "a+b"));
    try reflexivity; discriminate.
Defined.



(** X15.  A value that ends inside a percent escape makes [getParamValue]
    throw a [URIError] instead of returning. *)
Theorem getParamValue_truncated_escape (path name v t : JsString)
    (q : list Item) :
  name <> [] -> plain_name name = true -> key_text name = true ->
  no_separator path = true -> forallb well_formed_item q = true ->
  first_value name q = Some (Some (v ++ percent :: t)) ->
  no_percent v = true -> (List.length t < 2)%nat ->
  getParamValue (Some (path ++ question_mark :: render_query q)) name
  = ThrowsURIError.
Proof.
  intros Nn Pn Kn Hp Hq F Pv L.
  rewrite getParamValue_find, find_param_skip, find_param_query, F; auto.
  assert (D : decoded (v ++ percent :: t) = ThrowsURIError).
  { unfold decoded, decodeURIComponent, plus_to_space.
    rewrite map_app. cbn [map]. change (percent =? 43)%N with false. cbv iota.
    rewrite decode_truncated_escape; [reflexivity | |].
    - now rewrite <- no_percent_plus_to_space in Pv.
    - now rewrite length_map. }
  destruct (v ++ percent :: t) eqn:E; [now destruct v | exact D].
Qed.

Lemma getParamValue_truncated_escape_witness :
  getParamValue
    (Some (lit "http://x.io/" ++ question_mark ::
           render_query [(lit "q", Some (lit "50%"))]))
    (lit "q")
  = ThrowsURIError.
Proof.
  apply (@getParamValue_truncated_escape (lit "http://x.io/") (lit "q")
           (lit "50") []); try reflexivity; try discriminate. simpl. lia.
Defined.

(** X16.  [getParamValue] returns [null] when there is no window, when the
    name is empty and when the location has none of [?], [&] and [#]. *)
Theorem getParamValue_null :
  (forall name, getParamValue None name = ReturnsNull) /\
  (forall window, getParamValue window [] = ReturnsNull) /\
  (forall href name,
     plain_name name = true -> no_separator href = true ->
     getParamValue (Some href) name = ReturnsNull).
Proof.
  split; [reflexivity | split].
  - intros [href|]; reflexivity.
  - intros href name P H. destruct name as [|a n]; [reflexivity|].
    rewrite getParamValue_find by (discriminate || exact P).
    rewrite <- (app_nil_r href), find_param_skip by exact H. reflexivity.
Qed.

Lemma getParamValue_null_witness :
  getParamValue (Some (lit "http://x.io/index.html")) (lit "a") = ReturnsNull.
Proof.
  apply (proj2 (proj2 getParamValue_null)); reflexivity.
Defined.
